From Stdlib Require Import ZArith NArith List Bool Lia.
From Stdlib Require Import Floats.
From Stdlib Require Uint63 Ascii.
From Stdlib Require Import String.
Import ListNotations.
Open Scope float_scope.

(** * Root solver (src/main.rs) *)

(** [power]: binary exponentiation.  The loop [while count > 0] runs once
    per binary digit of [count]; [Npos] digits are walked from the least
    significant one, as [count % 2] and [count /= 2] do. *)
Section PowerBy.
Context {A : Type} (one : A) (mul : A -> A -> A).

Fixpoint power_loop (result y : A) (count : positive) : A :=
  match count with
  | xH => mul result y                         (* odd, then count becomes 0 *)
  | xO c => power_loop result (mul y y) c      (* even: only y *= y *)
  | xI c => power_loop (mul result y) (mul y y) c
  end.

Definition power_by (x : A) (n : N) : A :=
  match n with
  | N0 => one
  | Npos c => power_loop one x c
  end.
End PowerBy.

(** [fn power(x: f64, n: u32) -> f64]: the loop above on f64 products. *)
Definition power (x : float) (n : N) : float := power_by 1 mul x n.

(** [1e-20], read as the nearest f64, as rustc reads the literal. *)
Definition EPSILON : float := 1e-20.
Definition MAX_ITERATIONS : N := 1000000.

(** [n as f64] for a u32 [n]. *)
Definition u32_as_f64 (n : N) : float := of_uint63 (Uint63.of_Z (Z.of_N n)).

(** [n - 1] on u32 (wrapping at 0, as in a release build). *)
Definition u32_pred (n : N) : N :=
  match n with N0 => 4294967295%N | _ => N.pred n end.

Definition basic_next (v : float) (n : N) (p : float) : float :=
  p - ((power p n - v) / (u32_as_f64 n * power p (u32_pred n))).

(** A [while guard { body }] loop that runs its body at most [fuel] times. *)
Fixpoint iter_while {S : Type} (guard : S -> bool) (body : S -> S)
    (fuel : positive) (s : S) : S :=
  if negb (guard s) then s else
  match fuel with
  | xH => body s
  | xO f => iter_while guard body f (iter_while guard body f s)
  | xI f => iter_while guard body f (iter_while guard body f (body s))
  end.

(** The loop state of [root]: [(p, u, i)]. *)
Record root_state := { rs_p : float; rs_u : float; rs_i : N }.

Section Root.
Variable next : float * N * float -> float.
Variables (x : float) (n : N).

Definition root_guard (s : root_state) : bool :=
  (EPSILON <=? abs ((rs_u s - rs_p s) / rs_p s)) && N.leb (rs_i s) MAX_ITERATIONS.

Definition root_body (s : root_state) : root_state :=
  let p := rs_u s in
  {| rs_p := p; rs_u := next (x, n, p); rs_i := N.succ (rs_i s) |}.

Definition root_init : root_state :=
  let p := if 0 <=? x then 1 else -1 in
  {| rs_p := p; rs_u := next (x, n, p); rs_i := 1%N |}.

(** The loop may run up to [MAX_ITERATIONS] bodies before [i] passes the
    bound; the proof of claim C4 below shows the fuel never cuts it. *)
Definition root : float :=
  if abs x <=? EPSILON then 0
  else rs_u (iter_while root_guard root_body 1000000%positive root_init).
End Root.

Definition basic_step (t : float * N * float) : float :=
  let '(a, b, c) := t in basic_next a b c.

Definition of_nat_f (k : nat) : float := u32_as_f64 (N.of_nat k).

Definition recovers (x : nat) (n : N) : bool :=
  abs (root basic_step (power (of_nat_f x) n) n - of_nat_f x) <? EPSILON.


(** * Polynomials (src/polynomials.rs) *)

(** [#[derive(Debug, PartialEq)] pub struct Polynom { coeficients: Vec<f64> }] *)
Record Polynom := mkPolynom { coeficients : list float }.

(** [self.coeficients[i] = v] on a Vec; [None] is the index-out-of-bounds panic. *)
Fixpoint vec_set (l : list float) (i : nat) (v : float) : option (list float) :=
  match l, i with
  | [], _ => None
  | _ :: t, O => Some (v :: t)
  | h :: t, S k => option_map (cons h) (vec_set t k v)
  end.

(** [self.coeficients[i]] at an index the caller keeps in range. *)
Definition vec_at (l : list float) (i : nat) : float := nth i l 0.

Definition zero : Polynom := mkPolynom [0].

Definition single (n : nat) : Polynom :=
  mkPolynom (map (fun i => if Nat.ltb i n then 0 else 1) (seq 0 (S n))).

(** [initialize]: [None] is the panic of [assert!(coefs.len() > 0)] or of
    [assert_ne!( *coefs.last().unwrap(), 0.0)]. *)
Definition initialize (coefs : list float) : option Polynom :=
  match coefs with
  | [] => None
  | _ => if last coefs 0 =? 0 then None else Some (mkPolynom coefs)
  end.

(** [self.coeficients.len() - 1]; every [Polynom] built here has a
    non-empty vector. *)
Definition degree (p : Polynom) : nat := List.length (coeficients p) - 1.

Definition at_ (p : Polynom) (i : nat) : option float := nth_error (coeficients p) i.

(** [trim]: [while len > 1 && *last == 0.0 { pop() }], run on the reversed
    vector, whose head is the last coefficient. *)
Fixpoint pop_zeros (r : list float) : list float :=
  match r with
  | c :: ((_ :: _) as r') => if c =? 0 then pop_zeros r' else r
  | _ => r
  end.

Definition trim (p : Polynom) : Polynom :=
  mkPolynom (rev (pop_zeros (rev (coeficients p)))).

Definition set_at (p : Polynom) (i : nat) (v : float) : option Polynom :=
  match vec_set (coeficients p) i v with
  | Some l => Some (trim (mkPolynom l))
  | None => None
  end.

Definition plus (p : Polynom) (x : float) : Polynom :=
  trim (mkPolynom (map (fun c => c + x) (coeficients p))).

Definition by_ (p : Polynom) (x : float) : Polynom :=
  mkPolynom (map (fun c => c * x) (coeficients p)).

(** [by] and [at] are Rocq keywords, hence [by_] and [at_]. *)

(** [impl ops::Add for Polynom]: no [trim]. *)
Definition add (self rhs : Polynom) : Polynom :=
  let '(min, max) := if Nat.leb (degree rhs) (degree self) then (rhs, self) else (self, rhs) in
  mkPolynom
    (map (fun i => if Nat.leb i (degree min)
                   then vec_at (coeficients min) i + vec_at (coeficients max) i
                   else vec_at (coeficients max) i)
         (seq 0 (S (degree max)))).

(** [result.coeficients[k] += v] *)
Definition vec_add_at (l : list float) (k : nat) (v : float) : list float :=
  match vec_set l k (vec_at l k + v) with Some l' => l' | None => l end.

(** [impl ops::Mul for Polynom]: the double loop over a zeroed vector of
    length [d + 1], then [trim]. *)
Definition mul (self rhs : Polynom) : Polynom :=
  let d := (degree self + degree rhs)%nat in
  let result0 := match vec_set (coeficients (single d)) d 0 with
                 | Some l => l | None => coeficients (single d) end in
  let result :=
    fold_left (fun acc i =>
      fold_left (fun acc' j =>
        vec_add_at acc' (i + j)%nat (vec_at (coeficients self) i * vec_at (coeficients rhs) j))
        (seq 0 (S (degree rhs))) acc)
      (seq 0 (S (degree self))) result0 in
  trim (mkPolynom result).

(** [#[derive(PartialEq)]]: [Vec<f64>] equality, equal lengths and [==] on
    each pair of coefficients. *)
Fixpoint vec_eqb (a b : list float) : bool :=
  match a, b with
  | [], [] => true
  | x :: a', y :: b' => (x =? y) && vec_eqb a' b'
  | _, _ => false
  end.

Definition polynom_eqb (p q : Polynom) : bool := vec_eqb (coeficients p) (coeficients q).


(** ** Formatting *)

Local Open Scope char_scope.
Local Open Scope string_scope.

(** Decimal digits of a natural number, as [usize::to_string] prints them. *)
Definition digit_char (d : Z) : Ascii.ascii := Ascii.ascii_of_nat (48 + Z.to_nat d).

Fixpoint z_digits_aux (fuel : nat) (z : Z) (acc : String.string) : String.string :=
  match fuel with
  | O => acc
  | S f =>
      let acc' := String.String (digit_char (z mod 10)) acc in
      if (z <? 10)%Z then acc' else z_digits_aux f (z / 10)%Z acc'
  end.

(** Digits of [z >= 0]; [log2 z + 1] bounds the number of decimal digits. *)
Definition z_to_string (z : Z) : String.string :=
  z_digits_aux (S (Z.to_nat (Z.log2 z))) z String.EmptyString.

Definition nat_to_string (k : nat) : String.string := z_to_string (Z.of_nat k).

Fixpoint zeros (k : nat) : String.string :=
  match k with O => String.EmptyString | S k' => String.String (digit_char 0) (zeros k') end.

(** [f64]'s [Display] (no precision given): the shortest decimal
    [D * 10^t] that reads back as the same float (inside the rounding
    interval, bounds included when the mantissa is even), the one closest to
    the value among those, printed without an exponent. *)
Section Shortest.
Local Open Scope Z_scope.
Variables (m : positive) (e : Z).

(** The value is [V * 2^(e-2)] and the rounding interval [[L, H] * 2^(e-2)];
    it is narrower below a power of two, where the gap halves. *)
Definition sh_V : Z := 4 * Z.pos m.
Definition sh_H : Z := 4 * Z.pos m + 2.
Definition sh_L : Z :=
  if (Z.pos m =? 2 ^ 52)%Z && (-1074 <? e)%Z then 4 * Z.pos m - 1 else 4 * Z.pos m - 2.
Definition sh_incl : bool := Z.even (Z.pos m).

(** [X * 2^(e-2)] against [D * 10^t], compared as [X * scale_bin] against
    [D * scale_dec]. *)
Definition scale_bin (t : Z) : Z := 2 ^ Z.max 0 (e - 2) * 10 ^ Z.max 0 (- t).
Definition scale_dec (t : Z) : Z := 10 ^ Z.max 0 t * 2 ^ Z.max 0 (2 - e).

Definition ceil_div (a b : Z) : Z := - ((- a) / b).

Definition d_lo (t : Z) : Z :=
  let a := sh_L * scale_bin t in let b := scale_dec t in
  if sh_incl then ceil_div a b else a / b + 1.
Definition d_hi (t : Z) : Z :=
  let a := sh_H * scale_bin t in let b := scale_dec t in
  if sh_incl then a / b else ceil_div a b - 1.

(** Among the multiples of [10^t] in the interval, the one closest to the
    value (the even one on a tie). *)
Definition d_best (t : Z) : Z :=
  let a := sh_V * scale_bin t in let b := scale_dec t in
  let dv := a / b in let r := a mod b in
  if (dv <? d_lo t)%Z then dv + 1
  else if (d_hi t <? dv + 1)%Z then dv
  else match Z.compare (2 * r) b with
       | Lt => dv | Gt => dv + 1 | Eq => if Z.even dv then dv else dv + 1
       end.

(** Largest [t] (fewest digits) with a multiple of [10^t] in the interval. *)
Fixpoint shortest_from (fuel : nat) (t : Z) : Z * Z :=
  match fuel with
  | O => (0, t)
  | S f => if (d_lo t <=? d_hi t)%Z then (d_best t, t) else shortest_from f (t - 1)
  end.

Definition shortest : Z * Z :=
  let top := Z.of_nat (String.length (z_to_string (sh_H * 2 ^ Z.max 0 (e - 2)))) in
  shortest_from 2500 top.
End Shortest.

(** [digits_to_dec_str]: digits [s] with the decimal point [t] places from
    their end. *)
Definition place_point (s : String.string) (t : Z) : String.string :=
  let n := String.length s in
  if (0 <=? t)%Z then String.append s (zeros (Z.to_nat t))
  else let k := Z.to_nat (- t) in
       if Nat.ltb k n
       then String.append (String.substring 0 (n - k) s)
              (String.append "." (String.substring (n - k) k s))
       else String.append "0." (String.append (zeros (k - n)) s).

Definition f64_to_string (x : float) : String.string :=
  match Prim2SF x with
  | S754_zero s => if s then "-0" else "0"
  | S754_infinity s => if s then "-inf" else "inf"
  | S754_nan => "NaN"
  | S754_finite s m e =>
      let '(d, t) := shortest m e in
      String.append (if s then "-" else "") (place_point (z_to_string d) t)
  end.

(** [impl fmt::Display for Polynom]: the body of [for i in (0..=d).rev()],
    pushing onto [res]. *)
Definition fmt_step (d : nat) (x : float) (i : nat) (res : String.string) : String.string :=
  if negb (x =? 0)%float then
    let res := if Nat.ltb i d && (0 <? x)%float then String.append res "+"
               else if (x <? 0)%float then String.append res "-" else res in
    let res := if negb (abs x =? 1)%float || Nat.eqb i 0
               then String.append res (f64_to_string (abs x)) else res in
    let res := if Nat.ltb 0 i then String.append res "X" else res in
    if Nat.ltb 1 i then String.append (String.append res "^") (nat_to_string i) else res
  else res.

Definition fmt (p : Polynom) : String.string :=
  let d := degree p in
  let res := fold_left (fun res i => fmt_step d (vec_at (coeficients p) i) i res)
                       (rev (seq 0 (S d))) String.EmptyString in
  if Nat.eqb (String.length res) 0 then "0" else res.

Local Close Scope string_scope.
Local Close Scope char_scope.

(** The two loops of [mul], [m] rounds of each. *)
Definition inner_loop (a b : Polynom) (i m : nat) (acc : list float) : list float :=
  fold_left (fun acc' j =>
    vec_add_at acc' (i + j)%nat (vec_at (coeficients a) i * vec_at (coeficients b) j))
    (seq 0 m) acc.

Definition outer_loop (a b : Polynom) (m : nat) (acc : list float) : list float :=
  fold_left (fun acc i => inner_loop a b i (S (degree b)) acc) (seq 0 m) acc.

(** ** Statements of the specification *)

(** Invariant 1 of the specification (canonical form). *)
Definition canonical (p : Polynom) : bool :=
  let c := coeficients p in
  Nat.leb 1 (List.length c) && (Nat.leb (List.length c) 1 || negb (last c 0 =? 0)).

(** The convolution, coefficient [k] being the sum of [a[i] * b[k - i]]
    accumulated from [0.0] in increasing [i]. *)
Definition conv_coef (a b : Polynom) (k : nat) : float :=
  fold_left (fun acc i =>
    if Nat.leb i k && Nat.leb (k - i) (degree b)
    then acc + vec_at (coeficients a) i * vec_at (coeficients b) (k - i) else acc)
    (seq 0 (S (degree a))) 0.

Definition conv (a b : Polynom) : list float :=
  map (conv_coef a b) (seq 0 (S (degree a + degree b))).

(** The rendering convention of the specification, term by term. *)
Definition render_term (d i : nat) (x : float) : string :=
  if (x =? 0)%float then ""%string else
  let sign := if Nat.ltb i d && (0 <? x)%float then "+"%string
              else if (x <? 0)%float then "-"%string else ""%string in
  let magnitude := if (abs x =? 1)%float && Nat.leb 1 i then ""%string
                   else f64_to_string (abs x) in
  let variable := match i with
                  | O => ""%string
                  | 1 => "X"%string
                  | _ => String.append "X^" (nat_to_string i)
                  end in
  String.append sign (String.append magnitude variable).

Definition render (p : Polynom) : string :=
  let d := degree p in
  let s := String.concat "" (map (fun i => render_term d i (vec_at (coeficients p) i))
                                 (rev (seq 0 (S d)))) in
  if String.eqb s "" then "0"%string else s.

(** The loop of the test [valid_polynomes] in src/polynomials.rs:
    [for i in 0..p.degree() { p = p.set_at(i, 1.0); }], the range being
    taken once, before the loop; [None] is a panic of [set_at]. *)
Definition set_ones_loop (p : Polynom) : option Polynom :=
  fold_left (fun op i => match op with Some q => set_at q i 1%float | None => None end)
    (seq 0 (degree p)) (Some p).

(** * Proofs *)

Close Scope float_scope.

Definition degrees : list N := [2;3;4;5;6;7;8;9;10]%N.

Lemma recovers_table :
  forallb (fun x => forallb (recovers x) degrees) (seq 0 1001) = true.
Proof. vm_compute. reflexivity. Qed.

(** C1: for every integer [x] in [0, 1000] and every degree [n] in [2, 10],
    [root(power(x, n), n, basic_next)] is within [EPSILON] of [x]. *)
Theorem root_power_recovers (x : nat) (n : N) :
  x <= 1000 -> (2 <= n <= 10)%N ->
  (abs (root basic_step (power (of_nat_f x) n) n - of_nat_f x) <? EPSILON)%float = true.
Proof.
  intros Hx Hn.
  pose proof recovers_table as T.
  rewrite forallb_forall in T.
  assert (Hin : In x (seq 0 1001)) by (apply in_seq; lia).
  specialize (T x Hin). rewrite forallb_forall in T.
  apply T. unfold degrees.
  assert (n = 2 \/ n = 3 \/ n = 4 \/ n = 5 \/ n = 6 \/ n = 7 \/ n = 8 \/ n = 9 \/ n = 10)%N
    as H by lia.
  simpl. intuition.
Qed.


(** ** The bounded while loop *)

Section IterWhile.
Context {St : Type} (guard : St -> bool) (body : St -> St).

(** [iter_while] runs [k <= fuel] bodies, each from a state where the
    guard holds, and stops at a state where it fails or after [fuel]. *)
Lemma iter_while_runs (fuel : positive) (s : St) :
  exists k, k <= Pos.to_nat fuel /\
    iter_while guard body fuel s = Nat.iter k body s /\
    (forall j, j < k -> guard (Nat.iter j body s) = true) /\
    (guard (Nat.iter k body s) = false \/ k = Pos.to_nat fuel).
Proof.
  revert s; induction fuel as [f IH | f IH |]; intros s; simpl;
    destruct (guard s) eqn:G; simpl.
  - destruct (IH (body s)) as [k1 [Hk1 [E1 [G1 F1]]]].
    destruct (IH (Nat.iter k1 body (body s))) as [k2 [Hk2 [E2 [G2 F2]]]].
    exists (S (k2 + k1)). rewrite Pos2Nat.inj_xI. split; [lia|].
    split.
    + rewrite E1, E2, Nat.iter_succ_r, Nat.iter_add. reflexivity.
    + split.
      * intros j Hj. destruct j as [|j]; [exact G|].
        rewrite Nat.iter_succ_r.
        destruct (Nat.lt_ge_cases j k1) as [Hl|Hl]; [apply G1; lia|].
        replace j with ((j - k1) + k1) by lia. rewrite Nat.iter_add. apply G2. lia.
      * rewrite Nat.iter_succ_r, Nat.iter_add.
        destruct F1 as [F1|F1].
        -- destruct k2 as [|k2]; [left; exact F1|].
           specialize (G2 0 ltac:(lia)). simpl in G2. congruence.
        -- destruct F2 as [F2|F2]; [left; exact F2|right; lia].
  - exists 0. split; [lia|]. split; [reflexivity|]. split; [intros; lia|]. left; exact G.
  - destruct (IH s) as [k1 [Hk1 [E1 [G1 F1]]]].
    destruct (IH (Nat.iter k1 body s)) as [k2 [Hk2 [E2 [G2 F2]]]].
    exists (k2 + k1). rewrite Pos2Nat.inj_xO. split; [lia|].
    split.
    + rewrite E1, E2, Nat.iter_add. reflexivity.
    + split.
      * intros j Hj.
        destruct (Nat.lt_ge_cases j k1) as [Hl|Hl]; [apply G1; lia|].
        replace j with ((j - k1) + k1) by lia. rewrite Nat.iter_add. apply G2. lia.
      * rewrite Nat.iter_add.
        destruct F1 as [F1|F1].
        -- destruct k2 as [|k2]; [left; exact F1|].
           specialize (G2 0 ltac:(lia)). simpl in G2. congruence.
        -- destruct F2 as [F2|F2]; [left; exact F2|right; lia].
  - exists 0. split; [lia|]. split; [reflexivity|]. split; [intros; lia|]. left; exact G.
  - exists 1. split; [lia|]. split; [reflexivity|]. split.
    + intros j Hj. replace j with 0 by lia. exact G.
    + right. reflexivity.
  - exists 0. split; [lia|]. split; [reflexivity|]. split; [intros; lia|]. left; exact G.
Qed.
End IterWhile.

Lemma root_body_count next x n (j : nat) :
  rs_i (Nat.iter j (root_body next x n) (root_init next x n)) = N.succ (N.of_nat j).
Proof.
  induction j as [|j IH]; [reflexivity|].
  rewrite Nat.iter_succ. simpl. rewrite IH. lia.
Qed.

(** C4: [root] always terminates.  When [|x| > EPSILON], after the initial
    step the loop body runs [k <= MAX_ITERATIONS] times, the guard holding
    before each run and failing after the last, and [root] returns the [u] of
    that last state, with no other signal. *)
Theorem root_terminates (next : float * N * float -> float) (x : float) (n : N) :
  (abs x <=? EPSILON)%float = false ->
  exists k : nat,
    (N.of_nat k <= MAX_ITERATIONS)%N /\
    (forall j, j < k ->
       root_guard (Nat.iter j (root_body next x n) (root_init next x n)) = true) /\
    root_guard (Nat.iter k (root_body next x n) (root_init next x n)) = false /\
    root next x n = rs_u (Nat.iter k (root_body next x n) (root_init next x n)).
Proof.
  intros Hx.
  destruct (iter_while_runs root_guard (root_body next x n) 1000000 (root_init next x n))
    as [k [Hk [E [G F]]]].
  assert (Hk' : (N.of_nat k <= MAX_ITERATIONS)%N).
  { unfold MAX_ITERATIONS. rewrite <- (positive_nat_N 1000000). lia. }
  exists k. split; [exact Hk'|]. split; [exact G|]. split.
  - destruct F as [F|F]; [exact F|].
    unfold root_guard. rewrite root_body_count, F, positive_nat_N.
    rewrite andb_false_r. reflexivity.
  - unfold root. rewrite Hx, E. reflexivity.
Qed.

(** C6: for [|x| <= EPSILON], [root x n step] is exactly [0.0], whatever the
    step function, which is never called. *)
Theorem root_small_is_zero (next : float * N * float -> float) (x : float) (n : N) :
  (abs x <=? EPSILON)%float = true -> root next x n = 0%float.
Proof. intros H. unfold root. rewrite H. reflexivity. Qed.

(** ** [power] *)

Section PowerExact.
Context {A : Type} (one : A) (mul : A -> A -> A).
Hypothesis mul_assoc : forall a b c, mul a (mul b c) = mul (mul a b) c.
Hypothesis mul_comm : forall a b, mul a b = mul b a.
Hypothesis mul_one_l : forall a, mul one a = a.

(** [Nat.iter k (mul y) one] is the [k]-fold product [y * (y * ... one)]. *)
Lemma pow_add (p q : nat) (y : A) :
  Nat.iter (p + q) (mul y) one = mul (Nat.iter p (mul y) one) (Nat.iter q (mul y) one).
Proof.
  induction p as [|p IH]; simpl.
  - now rewrite mul_one_l.
  - now rewrite IH, mul_assoc.
Qed.

Lemma pow_square (k : nat) (y : A) :
  Nat.iter k (mul (mul y y)) one = Nat.iter (k + k) (mul y) one.
Proof.
  induction k as [|k IH]; [reflexivity|].
  rewrite Nat.add_succ_r. simpl. rewrite IH, mul_assoc. reflexivity.
Qed.

Lemma power_loop_product (c : positive) (r y : A) :
  power_loop mul r y c = mul r (Nat.iter (Pos.to_nat c) (mul y) one).
Proof.
  revert r y; induction c as [c IH | c IH |]; intros r y; simpl power_loop.
  - rewrite IH, pow_square, Pos2Nat.inj_xI.
    replace (2 * Pos.to_nat c)%nat with (Pos.to_nat c + Pos.to_nat c)%nat by lia.
    simpl. now rewrite mul_assoc.
  - rewrite IH, pow_square, Pos2Nat.inj_xO.
    replace (2 * Pos.to_nat c)%nat with (Pos.to_nat c + Pos.to_nat c)%nat by lia.
    reflexivity.
  - simpl. rewrite (mul_comm y one), mul_one_l. reflexivity.
Qed.
End PowerExact.

(** C5 (as amended): [power] is square-and-multiply.  With an exact
    multiplication (associative, commutative, with unit [one]) it is the
    [n]-fold product of [x]; on f64, [power(x, 0) = 1] for every [x] and
    [power(2.0, 4) = 16.0]. *)
Theorem power_square_and_multiply {A : Type} (one : A) (mul : A -> A -> A)
  (Hassoc : forall a b c, mul a (mul b c) = mul (mul a b) c)
  (Hcomm : forall a b, mul a b = mul b a)
  (Hone : forall a, mul one a = a) (x : A) (n : N) :
  power_by one mul x n = Nat.iter (N.to_nat n) (mul x) one /\
  (forall y : float, power y 0 = 1%float) /\ power 2 4 = 16%float.
Proof.
  split; [|split; [intros y; reflexivity | vm_compute; reflexivity]].
  destruct n as [|c]; [reflexivity|].
  unfold power_by. rewrite (power_loop_product one mul Hassoc Hcomm Hone).
  rewrite Hone. reflexivity.
Qed.

Lemma power_square_and_multiply_witness :
  power_by 1%Z Z.mul 3%Z 4 = Nat.iter 4 (Z.mul 3) 1%Z /\
  (forall y : float, power y 0 = 1%float) /\ power 2 4 = 16%float.
Proof.
  apply (power_square_and_multiply 1%Z Z.mul Z.mul_assoc Z.mul_comm Z.mul_1_l 3%Z 4).
Defined.

(** C5 fails as stated: [power(3.0, 34)] is the f64 [8338590849833284 * 2^1],
    not the integer [3^34 = 16677181699666569], which f64 cannot hold. *)
Lemma power_not_exact :
  exists (m : positive) (e : Z),
    Prim2SF (power 3 34) = S754_finite false m e /\ (Z.pos m * 2 ^ e <> 3 ^ 34)%Z.
Proof.
  exists 8338590849833284%positive, 1%Z. split.
  - vm_compute. reflexivity.
  - vm_compute. discriminate.
Qed.

(** ** Construction from a coefficient list *)

(** C7: [initialize] panics exactly on an empty list or a list whose last
    element is [== 0.0]; otherwise it keeps the list as given. *)
Theorem initialize_spec (coefs : list float) :
  ((coefs = [] \/ (last coefs 0 =? 0)%float = true) /\ initialize coefs = None) \/
  (coefs <> [] /\ (last coefs 0 =? 0)%float = false /\
   initialize coefs = Some (mkPolynom coefs)).
Proof.
  destruct coefs as [|c cs]; [left; split; [left|]; reflexivity|].
  unfold initialize. destruct (last (c :: cs) 0 =? 0)%float eqn:E.
  - left. split; [right | ]; reflexivity.
  - right. split; [discriminate|]. split; reflexivity.
Qed.

(** ** Vector updates *)

Lemma vec_set_in_range (l : list float) (i : nat) (v : float) :
  i < List.length l ->
  exists l', vec_set l i v = Some l' /\ List.length l' = List.length l /\
    forall k, nth k l' 0%float = if Nat.eqb k i then v else nth k l 0%float.
Proof.
  revert i; induction l as [|h t IH]; intros i Hi; simpl in Hi; [lia|].
  destruct i as [|i].
  - exists (v :: t). split; [reflexivity|]. split; [reflexivity|].
    intros [|k]; reflexivity.
  - destruct (IH i ltac:(lia)) as [l' [E [L N]]].
    exists (h :: l'). simpl. rewrite E. split; [reflexivity|].
    split; [simpl; congruence|]. intros [|k]; [reflexivity|]. apply N.
Qed.

Lemma vec_add_at_spec (l : list float) (j : nat) (v : float) :
  j < List.length l ->
  List.length (vec_add_at l j v) = List.length l /\
  forall k, vec_at (vec_add_at l j v) k =
            if Nat.eqb k j then (vec_at l k + v)%float else vec_at l k.
Proof.
  intros Hj. unfold vec_add_at.
  destruct (vec_set_in_range l j (vec_at l j + v)%float Hj) as [l' [E [L N]]].
  rewrite E. split; [exact L|]. intros k. unfold vec_at at 1. rewrite N.
  destruct (Nat.eqb_spec k j); subst; reflexivity.
Qed.

(** ** [mul] is the convolution *)

Section Convolution.
Variables (a b : Polynom).

Lemma inner_loop_spec (i m : nat) (acc : list float) :
  i + m <= List.length acc ->
  List.length (inner_loop a b i m acc) = List.length acc /\
  forall k, vec_at (inner_loop a b i m acc) k =
    if Nat.leb i k && Nat.ltb (k - i) m
    then (vec_at acc k + vec_at (coeficients a) i * vec_at (coeficients b) (k - i))%float else vec_at acc k.
Proof.
  induction m as [|m IH]; intros Hm.
  - split; [reflexivity|]. intros k. rewrite andb_false_r. reflexivity.
  - unfold inner_loop. rewrite seq_S, fold_left_app. simpl.
    fold (inner_loop a b i m acc).
    destruct (IH ltac:(lia)) as [L N].
    destruct (vec_add_at_spec (inner_loop a b i m acc) (i + m) (vec_at (coeficients a) i * vec_at (coeficients b) m)%float
                ltac:(lia)) as [L' N'].
    split; [congruence|]. intros k. rewrite N', N.
    destruct (Nat.eqb_spec k (i + m)) as [->|Hk].
    + replace (i + m - i) with m by lia.
      destruct (Nat.leb_spec i (i + m)); [|lia].
      destruct (Nat.ltb_spec m m); [lia|].
      destruct (Nat.ltb_spec m (S m)); [|lia]. reflexivity.
    + destruct (Nat.leb_spec i k); simpl; [|reflexivity].
      destruct (Nat.ltb_spec (k - i) m); destruct (Nat.ltb_spec (k - i) (S m));
        try reflexivity; lia.
Qed.

Lemma outer_loop_spec (m : nat) (acc : list float) :
  m <= S (degree a) -> List.length acc = S (degree a + degree b) ->
  List.length (outer_loop a b m acc) = S (degree a + degree b) /\
  forall k, vec_at (outer_loop a b m acc) k =
    fold_left (fun s i =>
      if Nat.leb i k && Nat.leb (k - i) (degree b) then (s + vec_at (coeficients a) i * vec_at (coeficients b) (k - i))%float else s)
      (seq 0 m) (vec_at acc k).
Proof.
  induction m as [|m IH]; intros Hm Hl.
  - split; [exact Hl|]. reflexivity.
  - unfold outer_loop. rewrite seq_S, fold_left_app. simpl.
    fold (outer_loop a b m acc).
    destruct (IH ltac:(lia) Hl) as [L N].
    destruct (inner_loop_spec m (S (degree b)) (outer_loop a b m acc) ltac:(lia)) as [L' N'].
    split; [congruence|]. intros k.
    rewrite fold_left_app, N', N. simpl.
    destruct (Nat.leb m k); simpl; [|reflexivity].
    destruct (Nat.ltb_spec (k - m) (S (degree b))); destruct (Nat.leb_spec (k - m) (degree b));
      try reflexivity; lia.
Qed.
End Convolution.

Lemma nth_map_lt {B : Type} (f : nat -> B) (l : list nat) (k : nat) (d : B) :
  k < List.length l -> nth k (map f l) d = f (nth k l 0).
Proof.
  revert k; induction l as [|h t IH]; intros k Hk; simpl in Hk; [lia|].
  destruct k; simpl; [reflexivity|]. apply IH. lia.
Qed.

Lemma mul_zeroed (d : nat) :
  let r := match vec_set (coeficients (single d)) d 0%float with
           | Some l => l | None => coeficients (single d) end in
  List.length r = S d /\ forall k, vec_at r k = 0%float.
Proof.
  cbv zeta.
  assert (Hl : List.length (coeficients (single d)) = S d)
    by (unfold single; cbn [coeficients]; rewrite length_map, length_seq; reflexivity).
  destruct (vec_set_in_range (coeficients (single d)) d 0%float ltac:(lia)) as [l' [E [L N]]].
  rewrite E. split; [congruence|]. intros k. unfold vec_at. rewrite N.
  destruct (Nat.eqb_spec k d); [reflexivity|].
  unfold single. cbn [coeficients].
  destruct (Nat.lt_ge_cases k (S d)) as [Hk|Hk].
  - rewrite nth_map_lt by (rewrite length_seq; exact Hk).
    rewrite seq_nth by exact Hk. simpl.
    destruct (Nat.ltb_spec k d); [reflexivity|lia].
  - apply nth_overflow. rewrite length_map, length_seq. exact Hk.
Qed.

Lemma mul_as_loops (a b : Polynom) :
  mul a b = trim (mkPolynom (outer_loop a b (S (degree a))
    (match vec_set (coeficients (single (degree a + degree b))) (degree a + degree b) 0%float with
     | Some l => l | None => coeficients (single (degree a + degree b)) end))).
Proof. reflexivity. Qed.

(** ** [trim] *)

Lemma pop_zeros_head (r : list float) :
  r <> [] -> exists c r', pop_zeros r = c :: r' /\ (r' = [] \/ (c =? 0)%float = false).
Proof.
  induction r as [|c t IH]; intros Hr; [congruence|].
  destruct t as [|h t].
  - exists c, []. split; [reflexivity | left; reflexivity].
  - simpl. destruct (c =? 0)%float eqn:E.
    + apply IH. discriminate.
    + exists c, (h :: t). split; [reflexivity | right; exact E].
Qed.

Lemma trim_canonical (p : Polynom) :
  coeficients p <> [] -> canonical (trim p) = true.
Proof.
  intros Hp. unfold trim, canonical. cbn [coeficients].
  assert (Hr : rev (coeficients p) <> []).
  { intros E. apply Hp. rewrite <- (rev_involutive (coeficients p)), E. reflexivity. }
  destruct (pop_zeros_head _ Hr) as [c [r' [E H]]]. rewrite E. simpl rev.
  rewrite last_last, length_app, length_rev. simpl List.length.
  destruct H as [->|H].
  - reflexivity.
  - rewrite H. destruct (Nat.leb_spec 1 (List.length r' + 1)); [|lia].
    rewrite orb_true_r. reflexivity.
Qed.

(** ** C3 *)

(** C3: [a * b] is the convolution, coefficient [k] summing
    [a[i] * b[k - i]] over [i] from a zeroed vector of length
    [deg a + deg b + 1], then trimmed to canonical form; and
    [zero() * single(1) = zero()], [single(2) * single(3) = single(5)]. *)
Theorem mul_convolution (a b : Polynom) :
  mul a b = trim (mkPolynom (conv a b)) /\ canonical (mul a b) = true /\
  mul zero (single 1) = zero /\ mul (single 2) (single 3) = single 5.
Proof.
  assert (Hconv : mul a b = trim (mkPolynom (conv a b))).
  { rewrite mul_as_loops. f_equal. f_equal.
    destruct (mul_zeroed (degree a + degree b)) as [Lz Nz].
    destruct (outer_loop_spec a b (S (degree a)) _ (le_n _) Lz) as [L N].
    apply (nth_ext _ _ 0%float 0%float).
    - rewrite L. unfold conv. rewrite length_map, length_seq. reflexivity.
    - intros k Hk. rewrite L in Hk.
      unfold vec_at in N, Nz. rewrite N, Nz. unfold conv.
      rewrite nth_map_lt by (rewrite length_seq; exact Hk).
      rewrite seq_nth by exact Hk. reflexivity. }
  split; [exact Hconv|]. split.
  - rewrite mul_as_loops. apply trim_canonical.
    destruct (mul_zeroed (degree a + degree b)) as [Lz Nz].
    destruct (outer_loop_spec a b (S (degree a)) _ (le_n _) Lz) as [L N].
    cbn [coeficients]. intros E. rewrite E in L. discriminate.
  - split; vm_compute; reflexivity.
Qed.

(** ** C2 *)

(** C2: [by] and [+] do not trim.  [single(1).by(0.0)] is [[0.0, 0.0]] and
    [single(1) + single(1).by(-1.0)] is [[0.0, 0.0]]: both break canonical
    form, while [trim] after [set_at], [plus] and [*] restores it. *)
Theorem by_add_break_canonical :
  by_ (single 1) 0 = mkPolynom [0%float; 0%float] /\
  canonical (by_ (single 1) 0) = false /\
  add (single 1) (by_ (single 1) (-1)) = mkPolynom [0%float; 0%float] /\
  canonical (add (single 1) (by_ (single 1) (-1))) = false.
Proof. vm_compute. repeat split; reflexivity. Qed.

(** ** Commutativity *)

Lemma SFadd_comm (prec emax : Z) (x y : spec_float) :
  SFadd prec emax x y = SFadd prec emax y x.
Proof.
  destruct x as [sx|sx| |sx mx ex], y as [sy|sy| |sy my ey];
    try destruct sx; try destruct sy; try reflexivity;
    unfold SFadd; rewrite Z.min_comm, Z.add_comm; reflexivity.
Qed.

Lemma float_add_comm (x y : float) : (x + y)%float = (y + x)%float.
Proof. apply Prim2SF_inj. rewrite !add_spec. apply SFadd_comm. Qed.

Lemma add_comm (a b : Polynom) : add a b = add b a.
Proof.
  unfold add.
  destruct (Nat.leb_spec (degree b) (degree a)) as [H1|H1];
    destruct (Nat.leb_spec (degree a) (degree b)) as [H2|H2]; try lia.
  - assert (E : degree a = degree b) by lia. rewrite E. f_equal.
    apply map_ext_in. intros i Hi. apply in_seq in Hi.
    destruct (Nat.leb_spec i (degree b)); [|lia].
    apply float_add_comm.
  - reflexivity.
  - reflexivity.
Qed.

(** The pair for which the order of the convolution sums matters. *)
Lemma mul_not_comm_example :
  polynom_eqb (mul (mkPolynom [1; 1e16; -1e16]%float) (mkPolynom [1; 1; 1]%float))
              (mul (mkPolynom [1; 1; 1]%float) (mkPolynom [1; 1e16; -1e16]%float)) = false.
Proof. vm_compute. reflexivity. Qed.

(** C9 (as amended): [a + b] and [b + a] have the same coefficients for all
    polynomials; [a * b] and [b * a] differ on f64 for some canonical [a],
    [b], the products of each coefficient being added in opposite orders. *)
Theorem add_comm_mul_not_comm :
  (forall a b : Polynom, add a b = add b a) /\
  exists a b : Polynom, canonical a = true /\ canonical b = true /\
    polynom_eqb (mul a b) (mul b a) = false.
Proof.
  split; [exact add_comm|].
  exists (mkPolynom [1; 1e16; -1e16]%float), (mkPolynom [1; 1; 1]%float).
  split; [vm_compute; reflexivity|]. split; [vm_compute; reflexivity|].
  exact mul_not_comm_example.
Qed.

(** C9 fails as stated, at [a = [1, 1e16, -1e16]] and [b = [1, 1, 1]]:
    coefficient 2 of [a * b] is [0] and of [b * a] is [1]. *)
Lemma mul_comm_counterexample :
  ~ (forall a b : Polynom, canonical a = true -> canonical b = true ->
       polynom_eqb (add a b) (add b a) = true /\ polynom_eqb (mul a b) (mul b a) = true).
Proof.
  intros H.
  destruct (H (mkPolynom [1; 1e16; -1e16]%float) (mkPolynom [1; 1; 1]%float)
              ltac:(vm_compute; reflexivity) ltac:(vm_compute; reflexivity)) as [_ E].
  rewrite mul_not_comm_example in E. discriminate.
Qed.

(** ** Equality *)

(** C10: [==] on [Polynom] is the comparison of the coefficient vectors
    (same length, [==] on each pair), so for every [p] of degree at least 1,
    [p.by(0.0)], which keeps all its coefficients, is not [== zero()]. *)
Theorem by_zero_not_eq_zero (p : Polynom) :
  (1 <= degree p)%nat ->
  (forall q r : Polynom, polynom_eqb q r = true <->
     Forall2 (fun x y => (x =? y)%float = true) (coeficients q) (coeficients r)) /\
  polynom_eqb (by_ p 0) zero = false.
Proof.
  intros Hd. split.
  - intros [q] [r]. unfold polynom_eqb. cbn [coeficients].
    revert r; induction q as [|x q IH]; intros [|y r]; simpl.
    + split; [constructor | reflexivity].
    + split; [discriminate | intros F; inversion F].
    + split; [discriminate | intros F; inversion F].
    + rewrite andb_true_iff, IH. split.
      * intros [E F]. constructor; assumption.
      * intros F. inversion F; subst. split; assumption.
  - destruct p as [[|c0 [|c1 cs]]]; unfold degree in Hd; simpl in Hd; try lia.
    unfold polynom_eqb, by_, zero. simpl. apply andb_false_r.
Qed.

Lemma by_zero_not_eq_zero_witness :
  (1 <= degree (single 1))%nat /\
  ((forall q r : Polynom, polynom_eqb q r = true <->
     Forall2 (fun x y => (x =? y)%float = true) (coeficients q) (coeficients r)) /\
   polynom_eqb (by_ (single 1) 0) zero = false).
Proof. split; [vm_compute; lia | apply (by_zero_not_eq_zero (single 1)); vm_compute; lia]. Defined.

(** ** Formatting *)

Lemma str_app_assoc (a b c : string) :
  String.append a (String.append b c) = String.append (String.append a b) c.
Proof. induction a as [|ch a IH]; simpl; [reflexivity | now rewrite IH]. Qed.

Lemma str_app_nil (a : string) : String.append a "" = a.
Proof. induction a as [|ch a IH]; simpl; [reflexivity | now rewrite IH]. Qed.

Lemma fmt_step_term (d i : nat) (x : float) (res : string) :
  fmt_step d x i res = String.append res (render_term d i x).
Proof.
  unfold fmt_step, render_term.
  destruct (x =? 0)%float; simpl; [now rewrite str_app_nil|].
  destruct (Nat.ltb i d && (0 <? x)%float), (x <? 0)%float, (abs x =? 1)%float;
    destruct i as [|[|i]]; simpl;
    repeat rewrite <- str_app_assoc; simpl; rewrite ?str_app_nil; reflexivity.
Qed.

Lemma concat_empty_cons (s : string) (l : list string) :
  String.concat "" (s :: l) = String.append s (String.concat "" l).
Proof. destruct l; simpl; [now rewrite str_app_nil | reflexivity]. Qed.

Lemma fmt_loop_concat (d : nat) (f : nat -> float) (l : list nat) (res : string) :
  fold_left (fun res i => fmt_step d (f i) i res) l res =
  String.append res (String.concat "" (map (fun i => render_term d i (f i)) l)).
Proof.
  revert res; induction l as [|i l IH]; intros res; cbn [fold_left map].
  - simpl. now rewrite str_app_nil.
  - rewrite IH, fmt_step_term, concat_empty_cons, str_app_assoc. reflexivity.
Qed.

(** C8: [Display] writes the terms from the highest degree down, each as
    [render_term] says (zero coefficients skipped, [+] before a positive
    term below the leading one, [-] before a negative one, magnitude left
    out when it is 1 on a term of degree >= 1, [X] for degree 1, [X^k]
    above), and [0] when nothing was written; the four examples of the
    specification print as stated. *)
Theorem fmt_renders (p : Polynom) :
  fmt p = render p /\
  option_map fmt (initialize [-1; -2; 0; 0; 3; -4]%float) = Some "-4X^5+3X^4-2X-1"%string /\
  fmt zero = "0"%string /\
  fmt (single 2) = "X^2"%string /\
  fmt (by_ (plus (by_ (single 2) 2) (-1)) (-0.5)) = "-0.5X^2+0.5X+0.5"%string.
Proof.
  split; [|vm_compute; repeat split; reflexivity].
  unfold fmt, render. rewrite fmt_loop_concat. simpl String.append.
  destruct (String.concat "" _); reflexivity.
Qed.

(** ** Witnesses *)

Lemma root_power_recovers_witness :
  (5 <= 1000 /\ (2 <= 2 <= 10)%N) /\
  (abs (root basic_step (power (of_nat_f 5) 2) 2 - of_nat_f 5) <? EPSILON)%float = true.
Proof. split; [split; lia | apply (root_power_recovers 5 2); lia]. Defined.

Lemma root_terminates_witness :
  (abs 8 <=? EPSILON)%float = false /\
  exists k : nat,
    (N.of_nat k <= MAX_ITERATIONS)%N /\
    (forall j, j < k ->
       root_guard (Nat.iter j (root_body basic_step 8 2) (root_init basic_step 8 2)) = true) /\
    root_guard (Nat.iter k (root_body basic_step 8 2) (root_init basic_step 8 2)) = false /\
    root basic_step 8 2 = rs_u (Nat.iter k (root_body basic_step 8 2) (root_init basic_step 8 2)).
Proof.
  split; [vm_compute; reflexivity|].
  apply (root_terminates basic_step 8 2). vm_compute. reflexivity.
Defined.

Lemma root_small_is_zero_witness :
  (abs 0 <=? EPSILON)%float = true /\ root basic_step 0 2 = 0%float.
Proof.
  split; [vm_compute; reflexivity|].
  apply (root_small_is_zero basic_step 0 2). vm_compute. reflexivity.
Defined.

(** ** Floating-point edge cases *)

Lemma prim_zero : Prim2SF 0%float = S754_zero false.
Proof. reflexivity. Qed.

(** [is_finite] holds exactly of the zeros and the finite non-zero values. *)
Lemma is_finite_spec (x : float) :
  is_finite x = true <->
  match Prim2SF x with S754_zero _ | S754_finite _ _ _ => True | _ => False end.
Proof.
  unfold is_finite, is_nan, is_infinity.
  rewrite !FloatAxioms.eqb_spec, abs_spec.
  change (Prim2SF infinity) with (S754_infinity false).
  destruct (Prim2SF x) as [s|s| |s m e]; try destruct s; unfold SFeqb, SFcompare; simpl;
    rewrite ?Z.compare_refl, ?Pos.compare_cont_refl; simpl;
    split; intros H; first [exact I | reflexivity | discriminate | contradiction].
Qed.

Lemma is_finite_cases (x : float) :
  is_finite x = true ->
  (exists s, Prim2SF x = S754_zero s) \/ (exists s m e, Prim2SF x = S754_finite s m e).
Proof.
  rewrite is_finite_spec. destruct (Prim2SF x); try tauto; eauto 6.
Qed.

Lemma eqb_zero_cases (x : float) :
  (x =? 0)%float = true <-> exists s, Prim2SF x = S754_zero s.
Proof.
  rewrite FloatAxioms.eqb_spec, prim_zero.
  destruct (Prim2SF x) as [s|s| |s m e]; simpl.
  - split; eauto.
  - split; [destruct s; discriminate | intros [? H]; discriminate].
  - split; [discriminate | intros [? H]; discriminate].
  - split; [destruct s; discriminate | intros [? H]; discriminate].
Qed.

(** [x == x] fails exactly on NaN. *)
Lemma float_eqb_refl (x : float) :
  (x =? x)%float = true <-> Prim2SF x <> S754_nan.
Proof.
  rewrite FloatAxioms.eqb_spec.
  destruct (Prim2SF x) as [s|s| |s m e]; try destruct s; unfold SFeqb, SFcompare; simpl;
    rewrite ?Z.compare_refl, ?Pos.compare_cont_refl; simpl;
    split; intros H; first [reflexivity | discriminate | congruence].
Qed.

(** [+0.0 + c = c] unless [c] is [-0.0]. *)
Lemma float_add_zero_l (c : float) :
  Prim2SF c <> S754_zero true -> (0 + c)%float = c.
Proof.
  intros H. apply Prim2SF_inj. rewrite add_spec, prim_zero.
  destruct (Prim2SF c) as [[|]|s| |s m e]; try reflexivity. congruence.
Qed.

(** A zero times a finite value or a zero is a zero. *)
Lemma float_mul_zero_l (z c : float) :
  (exists s, Prim2SF z = S754_zero s) -> is_finite c = true ->
  exists s, Prim2SF (z * c)%float = S754_zero s.
Proof.
  intros [s Hz] Hc. rewrite mul_spec, Hz.
  destruct (is_finite_cases c Hc) as [[t E]|[t [m [e E]]]]; rewrite E; simpl; eauto.
Qed.

Lemma float_mul_zero_r (z c : float) :
  (exists s, Prim2SF z = S754_zero s) -> is_finite c = true ->
  exists s, Prim2SF (c * z)%float = S754_zero s.
Proof.
  intros [s Hz] Hc. rewrite mul_spec, Hz.
  destruct (is_finite_cases c Hc) as [[t E]|[t [m [e E]]]]; rewrite E; simpl; eauto.
Qed.

(** [+0.0] plus a zero is [+0.0]. *)
Lemma float_add_pos_zero_zero (z : float) :
  (exists s, Prim2SF z = S754_zero s) -> (0 + z)%float = 0%float.
Proof.
  intros [s Hz]. apply Prim2SF_inj. rewrite add_spec, Hz, prim_zero.
  destruct s; reflexivity.
Qed.

(** A finite value minus itself is [+0.0]. *)
Lemma float_sub_self (v : float) :
  is_finite v = true -> Prim2SF (v - v)%float = S754_zero false.
Proof.
  intros Hv. rewrite sub_spec.
  destruct (is_finite_cases v Hv) as [[s E]|[s [m [e E]]]]; rewrite E.
  - destruct s; reflexivity.
  - unfold SF64sub, SFsub. rewrite Z.sub_diag. reflexivity.
Qed.

Lemma float_div_zero (z d : float) :
  (exists s, Prim2SF z = S754_zero s) -> is_finite d = true -> (d =? 0)%float = false ->
  exists s, Prim2SF (z / d)%float = S754_zero s.
Proof.
  intros [s Hz] Hd Hd0. rewrite div_spec, Hz.
  destruct (is_finite_cases d Hd) as [[t E]|[t [m [e E]]]].
  - exfalso. assert (H : (d =? 0)%float = true) by (apply eqb_zero_cases; eauto). congruence.
  - rewrite E. simpl. eauto.
Qed.

Lemma float_sub_zero (p z : float) :
  is_finite p = true -> (p =? 0)%float = false -> (exists s, Prim2SF z = S754_zero s) ->
  (p - z)%float = p.
Proof.
  intros Hp Hp0 [s Hz]. apply Prim2SF_inj. rewrite sub_spec, Hz.
  destruct (is_finite_cases p Hp) as [[t E]|[t [m [e E]]]].
  - exfalso. assert (H : (p =? 0)%float = true) by (apply eqb_zero_cases; eauto). congruence.
  - rewrite E. reflexivity.
Qed.

(** ** List facts *)

Lemma last_nth_len {A : Type} (l : list A) (d : A) :
  last l d = nth (List.length l - 1) l d.
Proof.
  induction l as [|a [|b l] IH]; [reflexivity | reflexivity |].
  change (last (a :: b :: l) d) with (last (b :: l) d). rewrite IH.
  simpl. rewrite ?Nat.sub_0_r. reflexivity.
Qed.

Lemma last_map_seq (f : nat -> float) (n : nat) (d : float) :
  last (map f (seq 0 (S n))) d = f n.
Proof. rewrite seq_S, map_app. apply last_last. Qed.

Lemma length_single (n : nat) : List.length (coeficients (single n)) = S n.
Proof. unfold single. cbn [coeficients]. rewrite length_map, length_seq. reflexivity. Qed.

Lemma degree_single (n : nat) : degree (single n) = n.
Proof. unfold degree. rewrite length_single. lia. Qed.

Lemma vec_at_single (n i : nat) :
  vec_at (coeficients (single n)) i = if Nat.eqb i n then 1%float else 0%float.
Proof.
  unfold vec_at, single. cbn [coeficients].
  destruct (Nat.lt_ge_cases i (S n)) as [Hi|Hi].
  - rewrite nth_map_lt by (rewrite length_seq; exact Hi).
    rewrite seq_nth by exact Hi. simpl.
    destruct (Nat.ltb_spec i n), (Nat.eqb_spec i n); try reflexivity; lia.
  - rewrite nth_overflow by (rewrite length_map, length_seq; exact Hi).
    destruct (Nat.eqb_spec i n); [lia | reflexivity].
Qed.

Lemma nth_map_in {A B : Type} (f : A -> B) (l : list A) (k : nat) (d : B) (d' : A) :
  k < List.length l -> nth k (map f l) d = f (nth k l d').
Proof.
  revert k; induction l as [|h t IH]; intros k Hk; simpl in Hk; [lia|].
  destruct k; simpl; [reflexivity|]. apply IH. lia.
Qed.

(** ** [trim] *)

Lemma pop_zeros_split (r : list float) :
  exists z, r = z ++ pop_zeros r /\ Forall (fun c => (c =? 0)%float = true) z.
Proof.
  induction r as [|c t IH]; [exists []; split; [reflexivity | constructor]|].
  destruct t as [|h t]; [exists []; split; [reflexivity | constructor]|].
  simpl pop_zeros. destruct (c =? 0)%float eqn:E.
  - destruct IH as [z [Ez Fz]]. exists (c :: z). split.
    + cbn [app]. f_equal. exact Ez.
    + constructor; assumption.
  - exists []. split; [reflexivity | constructor].
Qed.

Lemma trim_id (p : Polynom) : canonical p = true -> trim p = p.
Proof.
  destruct p as [c]. unfold canonical, trim. cbn [coeficients].
  intros H. apply andb_true_iff in H as [H1 H2].
  f_equal. rewrite <- (rev_involutive c) at 2. f_equal.
  destruct (rev c) as [|x [|y r]] eqn:E.
  - reflexivity.
  - reflexivity.
  - assert (Hl : List.length c = S (S (List.length r))).
    { rewrite <- length_rev, E. reflexivity. }
    assert (Hx : last c 0%float = x).
    { rewrite <- (rev_involutive c), E. cbn [rev]. apply last_last. }
    rewrite Hl, Hx in H2. simpl in H2. simpl.
    destruct (x =? 0)%float; [discriminate | reflexivity].
Qed.

Lemma vec_set_none (l : list float) (i : nat) (v : float) :
  vec_set l i v = None <-> List.length l <= i.
Proof.
  revert i; induction l as [|h t IH]; intros i; simpl; [split; [lia | reflexivity]|].
  destruct i as [|i]; [split; [discriminate | lia]|].
  destruct (vec_set t i v) eqn:E; simpl.
  - split; [discriminate|]. intros H. assert (H' : List.length t <= i) by lia.
    apply IH in H'. congruence.
  - split; [|reflexivity]. intros _. apply le_n_S, IH, E.
Qed.

(** X1: [trim] of a non-empty polynomial is canonical and only removes
    trailing coefficients that are [== 0.0]; a canonical polynomial is left
    as it is. *)
Theorem trim_drops_trailing_zeros (p : Polynom) :
  coeficients p <> [] ->
  canonical (trim p) = true /\
  (exists z, coeficients p = coeficients (trim p) ++ z /\
             Forall (fun c => (c =? 0)%float = true) z) /\
  (canonical p = true -> trim p = p).
Proof.
  intros Hp. split; [apply trim_canonical, Hp|]. split; [|apply trim_id].
  destruct (pop_zeros_split (rev (coeficients p))) as [z [Ez Fz]].
  exists (rev z). split.
  - unfold trim. cbn [coeficients]. rewrite <- rev_app_distr, <- Ez, rev_involutive.
    reflexivity.
  - apply Forall_rev, Fz.
Qed.

(** X2: [set_at] panics (index out of bounds) exactly when [i] is not below
    the length of the coefficient vector. *)
Theorem set_at_out_of_bounds (p : Polynom) (i : nat) (v : float) :
  set_at p i v = None <-> List.length (coeficients p) <= i.
Proof.
  unfold set_at. rewrite <- (vec_set_none _ i v).
  destruct (vec_set (coeficients p) i v); split; intros H; first [reflexivity | discriminate].
Qed.

(** X3: on a canonical polynomial, [set_at] below the degree, or at the
    degree with a value [!= 0.0], replaces coefficient [i] by [v] and keeps
    every other coefficient and the degree: [trim] has nothing to remove. *)
Theorem set_at_replaces (p : Polynom) (i : nat) (v : float) :
  canonical p = true -> i <= degree p -> (i < degree p \/ (v =? 0)%float = false) ->
  exists q, set_at p i v = Some q /\ degree q = degree p /\ canonical q = true /\
    forall k, vec_at (coeficients q) k =
              if Nat.eqb k i then v else vec_at (coeficients p) k.
Proof.
  intros Hc Hi Hv. destruct p as [c]. unfold degree in *. cbn [coeficients] in *.
  unfold canonical in Hc. cbn [coeficients] in Hc.
  apply andb_true_iff in Hc as [H1 H2]. apply Nat.leb_le in H1.
  destruct (vec_set_in_range c i v ltac:(lia)) as [l' [E [L N]]].
  assert (Cl : canonical (mkPolynom l') = true).
  { unfold canonical. cbn [coeficients]. rewrite L.
    apply andb_true_iff. split; [apply Nat.leb_le; exact H1|].
    rewrite last_nth_len, L, N. destruct (Nat.eqb_spec (List.length c - 1) i) as [Ei|Ei].
    - destruct Hv as [Hv|Hv]; [lia|]. rewrite Hv, orb_true_r. reflexivity.
    - rewrite <- last_nth_len. exact H2. }
  exists (mkPolynom l'). unfold set_at. cbn [coeficients]. rewrite E, trim_id by exact Cl.
  split; [reflexivity|]. split; [cbn [coeficients]; rewrite L; reflexivity|].
  split; [exact Cl|]. intros k. unfold vec_at. apply N.
Qed.

Lemma canonical_single (n : nat) : canonical (single n) = true.
Proof.
  unfold canonical. rewrite length_single. unfold single. cbn [coeficients].
  rewrite last_map_seq, Nat.ltb_irrefl. simpl. apply orb_true_r.
Qed.

Lemma mul_canonical (a b : Polynom) : canonical (mul a b) = true.
Proof.
  rewrite mul_as_loops. apply trim_canonical.
  destruct (mul_zeroed (degree a + degree b)) as [Lz Nz].
  destruct (outer_loop_spec a b (S (degree a)) _ (le_n _) Lz) as [L N].
  cbn [coeficients]. intros E. rewrite E in L. discriminate.
Qed.

(** X4: every constructor and every trimming operation yields a canonical
    polynomial: [zero], [single], [initialize] (when it does not panic),
    [set_at] (when it does not panic), [plus] on a non-empty polynomial and
    [*]. *)
Theorem constructors_canonical :
  canonical zero = true /\
  (forall n, canonical (single n) = true) /\
  (forall l p, initialize l = Some p -> canonical p = true) /\
  (forall p i v q, set_at p i v = Some q -> canonical q = true) /\
  (forall p x, coeficients p <> [] -> canonical (plus p x) = true) /\
  (forall a b, canonical (mul a b) = true).
Proof.
  split; [reflexivity|]. split; [exact canonical_single|]. split; [|split; [|split]].
  - intros [|c l] p H; [discriminate|]. unfold initialize in H.
    destruct (last (c :: l) 0 =? 0)%float eqn:E; [discriminate|].
    injection H as <-. unfold canonical. cbn [coeficients]. rewrite E. simpl.
    apply orb_true_r.
  - intros p i v q H. unfold set_at in H.
    destruct (vec_set (coeficients p) i v) as [l|] eqn:E; [|discriminate].
    injection H as <-. apply trim_canonical. cbn [coeficients].
    assert (Hi : i < List.length (coeficients p)).
    { destruct (Nat.lt_ge_cases i (List.length (coeficients p))) as [Hi|Hi]; [exact Hi|].
      apply (vec_set_none _ i v) in Hi. congruence. }
    destruct (vec_set_in_range _ i v Hi) as [l' [E' [L _]]].
    rewrite E in E'. injection E' as ->. intros En. rewrite En in L. simpl in L. lia.
  - intros p x Hp. apply trim_canonical. cbn [coeficients].
    destruct (coeficients p); [congruence | discriminate].
  - exact mul_canonical.
Qed.

Lemma canonical_last (p : Polynom) :
  canonical p = true -> 1 <= degree p -> (vec_at (coeficients p) (degree p) =? 0)%float = false.
Proof.
  unfold canonical, degree, vec_at. intros H Hd.
  apply andb_true_iff in H as [_ H]. rewrite <- last_nth_len.
  destruct (Nat.leb_spec (List.length (coeficients p)) 1); [lia|].
  simpl in H. destruct (last (coeficients p) 0 =? 0)%float; [discriminate | reflexivity].
Qed.

Lemma length_add (a b : Polynom) :
  List.length (coeficients (add a b)) = S (Nat.max (degree a) (degree b)).
Proof.
  unfold add. destruct (Nat.leb_spec (degree b) (degree a));
    cbn [coeficients]; rewrite length_map, length_seq; f_equal; lia.
Qed.

(** X5: the sum of two canonical polynomials is canonical, of degree the
    larger one, when their degrees differ (the leading coefficient of the
    larger one is copied) or when the sum of their leading coefficients is
    not [== 0.0]. *)
Theorem add_canonical (a b : Polynom) :
  canonical a = true -> canonical b = true ->
  (degree a <> degree b \/
   (vec_at (coeficients a) (degree a) + vec_at (coeficients b) (degree b) =? 0)%float = false) ->
  canonical (add a b) = true /\ degree (add a b) = Nat.max (degree a) (degree b).
Proof.
  intros Ha Hb Hd.
  assert (Hdeg : degree (add a b) = Nat.max (degree a) (degree b))
    by (unfold degree at 1; rewrite length_add; lia).
  split; [|exact Hdeg].
  unfold canonical. rewrite length_add. apply andb_true_iff.
  split; [apply Nat.leb_le; lia|].
  destruct (Nat.leb_spec (S (Nat.max (degree a) (degree b))) 1); [reflexivity|]. simpl.
  unfold add. destruct (Nat.leb_spec (degree b) (degree a)); cbn [coeficients];
    rewrite last_map_seq.
  - destruct (Nat.leb_spec (degree a) (degree b)).
    + assert (E : degree a = degree b) by lia.
      destruct Hd as [Hd|Hd]; [contradiction|].
      rewrite E in Hd |- *. rewrite float_add_comm, Hd. reflexivity.
    + rewrite (canonical_last a Ha) by lia. reflexivity.
  - destruct (Nat.leb_spec (degree b) (degree a)); [lia|].
    rewrite (canonical_last b Hb) by lia. reflexivity.
Qed.


(** X7: [single(n) + single(n)] is [single(n).by(2.0)], for every [n]. *)
Theorem add_single_self (n : nat) : add (single n) (single n) = by_ (single n) 2.
Proof.
  unfold add. rewrite Nat.leb_refl. unfold by_. cbn [coeficients]. f_equal.
  apply (nth_ext _ _ 0%float 0%float).
  - rewrite !length_map, length_seq, length_single, degree_single. reflexivity.
  - intros k Hk. rewrite length_map, length_seq, degree_single in Hk.
    rewrite degree_single.
    rewrite nth_map_lt by (rewrite length_seq; exact Hk).
    rewrite seq_nth by exact Hk. simpl Nat.add.
    rewrite (nth_map_in _ _ _ _ 0%float) by (rewrite length_single; exact Hk).
    fold (vec_at (coeficients (single n)) k).
    rewrite vec_at_single.
    destruct (Nat.leb_spec k n); [|lia].
    destruct (Nat.eqb_spec k n); reflexivity.
Qed.

(** X8: [p.plus(0.0)] is [p] for a canonical [p] with no coefficient
    [-0.0]. *)
Theorem plus_zero_id (p : Polynom) :
  canonical p = true ->
  Forall (fun c => Prim2SF c <> S754_zero true) (coeficients p) ->
  plus p 0 = p.
Proof.
  intros Hc Hz. unfold plus.
  rewrite (map_ext_in _ (fun c => c)), map_id.
  - destruct p as [l]. apply trim_id, Hc.
  - intros c Hin. rewrite Forall_forall in Hz.
    rewrite float_add_comm. apply float_add_zero_l, Hz, Hin.
Qed.

(** The coefficient [k] of the product of two monomials, summed up to [j]. *)
Lemma single_conv_prefix (m n k j : nat) :
  j <= S m ->
  fold_left (fun s i =>
    if Nat.leb i k && Nat.leb (k - i) n
    then (s + vec_at (coeficients (single m)) i * vec_at (coeficients (single n)) (k - i))%float
    else s) (seq 0 j) 0%float =
  if Nat.eqb k (m + n) && Nat.ltb m j then 1%float else 0%float.
Proof.
  induction j as [|j IH]; intros Hj.
  - simpl. rewrite andb_false_r. reflexivity.
  - rewrite seq_S, fold_left_app, IH by lia. cbn [fold_left]. cbv beta.
    change (0 + j) with j.
    destruct (Nat.ltb_spec m j); [lia|]. rewrite andb_false_r.
    rewrite !vec_at_single.
    destruct (Nat.leb_spec j k), (Nat.leb_spec (k - j) n), (Nat.eqb_spec j m),
      (Nat.eqb_spec (k - j) n), (Nat.eqb_spec k (m + n)), (Nat.ltb_spec m (S j));
      simpl; try reflexivity; lia.
Qed.

(** X9: the product of the monomials [X^m] and [X^n] is [X^(m+n)], for all
    [m] and [n]. *)
Theorem mul_single_single (m n : nat) : mul (single m) (single n) = single (m + n).
Proof.
  rewrite mul_as_loops, !degree_single.
  destruct (mul_zeroed (m + n)) as [Lz Nz].
  rewrite <- (degree_single m), <- (degree_single n) in Lz |- *.
  destruct (outer_loop_spec (single m) (single n) (S (degree (single m))) _ (le_n _) Lz)
    as [L N].
  rewrite !degree_single in *.
  match goal with |- trim (mkPolynom ?l) = _ =>
    assert (E : l = coeficients (single (m + n))) end.
  { apply (nth_ext _ _ 0%float 0%float).
    - rewrite L, length_single. reflexivity.
    - intros k Hk. rewrite L in Hk.
      change (nth k ?a 0%float = nth k ?b 0%float) with (vec_at a k = vec_at b k).
      rewrite N, Nz, single_conv_prefix, vec_at_single by lia.
      destruct (Nat.ltb_spec m (S m)); [|lia]. rewrite andb_true_r.
      destruct (Nat.eqb_spec k (m + n)); reflexivity. }
  rewrite E. apply trim_id, canonical_single.
Qed.

(** A conditional sum from [+0.0] whose added terms are all zeros stays [+0.0]. *)
Lemma fold_zero_terms (c : nat -> bool) (t : nat -> float) (l : list nat) :
  (forall i, In i l -> c i = true -> exists s, Prim2SF (t i) = S754_zero s) ->
  fold_left (fun s i => if c i then (s + t i)%float else s) l 0%float = 0%float.
Proof.
  induction l as [|i l IH]; intros H; [reflexivity|]. cbn [fold_left].
  destruct (c i) eqn:E.
  - rewrite float_add_pos_zero_zero by (apply H; [left; reflexivity | exact E]).
    apply IH. intros j Hj. apply H. right. exact Hj.
  - apply IH. intros j Hj. apply H. right. exact Hj.
Qed.

Lemma vec_at_finite (l : list float) (j : nat) :
  Forall (fun c => is_finite c = true) l -> is_finite (vec_at l j) = true.
Proof.
  intros H. unfold vec_at. destruct (Nat.lt_ge_cases j (List.length l)) as [Hj|Hj].
  - rewrite Forall_forall in H. apply H, nth_In, Hj.
  - rewrite nth_overflow by exact Hj. reflexivity.
Qed.

Lemma vec_at_zero (j : nat) : exists s, Prim2SF (vec_at (coeficients zero) j) = S754_zero s.
Proof. exists false. destruct j as [|[|j]]; reflexivity. Qed.

Lemma pop_zeros_repeat (k : nat) : pop_zeros (repeat 0%float (S k)) = [0%float].
Proof. induction k as [|k IH]; [reflexivity|]. exact IH. Qed.

(** A product whose coefficients were all summed to [+0.0] trims to [zero()]. *)
Lemma mul_all_zero (a b : Polynom) :
  (forall k, k <= degree a + degree b -> forall i, i <= degree a -> i <= k -> k - i <= degree b ->
     exists s, Prim2SF (vec_at (coeficients a) i * vec_at (coeficients b) (k - i))%float = S754_zero s) ->
  mul a b = zero.
Proof.
  intros H. rewrite mul_as_loops.
  destruct (mul_zeroed (degree a + degree b)) as [Lz Nz].
  destruct (outer_loop_spec a b (S (degree a)) _ (le_n _) Lz) as [L N].
  match goal with |- trim (mkPolynom ?l) = _ =>
    assert (E : l = repeat 0%float (S (degree a + degree b))) end.
  { apply (nth_ext _ _ 0%float 0%float).
    - rewrite L, repeat_length. reflexivity.
    - intros k Hk. rewrite L in Hk. rewrite nth_repeat.
      change (nth k ?x 0%float) with (vec_at x k). rewrite N, Nz.
      apply (fold_zero_terms (fun i => Nat.leb i k && Nat.leb (k - i) (degree b))
               (fun i => vec_at (coeficients a) i * vec_at (coeficients b) (k - i))%float).
      intros i Hi Hc. apply in_seq in Hi. apply andb_true_iff in Hc as [H1 H2].
      apply Nat.leb_le in H1, H2. apply H; lia. }
  rewrite E. unfold trim. cbn [coeficients]. rewrite rev_repeat, pop_zeros_repeat.
  reflexivity.
Qed.

(** X10: [zero() * p] and [p * zero()] are [zero()] when no coefficient of
    [p] is infinite or NaN: every product is a signed zero and the sums
    start from [+0.0]. *)
Theorem mul_zero (p : Polynom) :
  Forall (fun c => is_finite c = true) (coeficients p) ->
  mul zero p = zero /\ mul p zero = zero.
Proof.
  intros Hp. split; apply mul_all_zero; intros k _ i _ _ _.
  - apply float_mul_zero_l; [apply vec_at_zero | apply vec_at_finite, Hp].
  - apply float_mul_zero_r; [apply vec_at_zero | apply vec_at_finite, Hp].
Qed.

(** Coefficient [deg a + deg b] of the product is [0.0 + a[deg a] * b[deg b]]. *)
Lemma conv_top (a b : Polynom) (j : nat) :
  j <= degree a ->
  fold_left (fun s i =>
    if Nat.leb i (degree a + degree b) && Nat.leb (degree a + degree b - i) (degree b)
    then (s + vec_at (coeficients a) i * vec_at (coeficients b) (degree a + degree b - i))%float
    else s) (seq 0 j) 0%float = 0%float.
Proof.
  induction j as [|j IH]; intros Hj; [reflexivity|].
  rewrite seq_S, fold_left_app, IH by lia. cbn [fold_left]. cbv beta.
  change (0 + j) with j.
  destruct (Nat.leb_spec (degree a + degree b - j) (degree b)); [lia|].
  rewrite andb_false_r. reflexivity.
Qed.

Lemma trim_length_le (p : Polynom) :
  List.length (coeficients (trim p)) <= List.length (coeficients p).
Proof.
  destruct (pop_zeros_split (rev (coeficients p))) as [z [Ez _]].
  unfold trim. cbn [coeficients]. rewrite length_rev.
  apply (f_equal (@List.length float)) in Ez. rewrite length_app, length_rev in Ez. lia.
Qed.

(** X11: the degree of [a * b] is at most [deg a + deg b], and equal to it
    when the product of the leading coefficients is not [== 0.0] (an f64
    product can underflow to [0.0]). *)
Theorem mul_degree (a b : Polynom) :
  degree (mul a b) <= degree a + degree b /\
  ((vec_at (coeficients a) (degree a) * vec_at (coeficients b) (degree b) =? 0)%float = false ->
   degree (mul a b) = degree a + degree b).
Proof.
  rewrite mul_as_loops.
  destruct (mul_zeroed (degree a + degree b)) as [Lz Nz].
  destruct (outer_loop_spec a b (S (degree a)) _ (le_n _) Lz) as [L N].
  split.
  - unfold degree at 1. pose proof (trim_length_le (mkPolynom (outer_loop a b (S (degree a))
      match vec_set (coeficients (single (degree a + degree b))) (degree a + degree b) 0%float with
      | Some l => l | None => coeficients (single (degree a + degree b)) end))) as T.
    cbn [coeficients] in T. rewrite L in T. lia.
  - intros Hlead. rewrite trim_id.
    + unfold degree at 1. cbn [coeficients]. rewrite L. lia.
    + unfold canonical. cbn [coeficients]. rewrite L.
      rewrite last_nth_len, L. replace (S (degree a + degree b) - 1) with (degree a + degree b) by lia.
      change (nth ?k ?x 0%float) with (vec_at x k). rewrite N, Nz.
      rewrite seq_S, fold_left_app, conv_top by lia. cbn [fold_left]. cbv beta.
      change (0 + degree a) with (degree a).
      replace (degree a + degree b - degree a) with (degree b) by lia.
      rewrite Nat.leb_refl. destruct (Nat.leb_spec (degree a) (degree a + degree b)); [|lia].
      simpl andb. cbv iota.
      rewrite float_add_zero_l.
      * rewrite Hlead, orb_true_r. reflexivity.
      * intros Ez. assert (Hz : (vec_at (coeficients a) (degree a) * vec_at (coeficients b) (degree b) =? 0)%float = true)
          by (apply eqb_zero_cases; eauto). congruence.
Qed.

Lemma concat_all_empty (l : list string) :
  Forall (fun s => s = ""%string) l -> String.concat "" l = ""%string.
Proof.
  induction l as [|s l IH]; intros H; [reflexivity|].
  inversion H; subst. rewrite concat_empty_cons, IH by assumption. reflexivity.
Qed.

(** X12: [single(n)] prints as [1], [X] or [X^n]. *)
Theorem fmt_single (n : nat) :
  fmt (single n) = match n with
                   | O => "1"%string
                   | 1 => "X"%string
                   | _ => String.append "X^" (nat_to_string n)
                   end.
Proof.
  unfold fmt. rewrite fmt_loop_concat, degree_single, seq_S, rev_app_distr.
  cbn [rev app map]. change (0 + n) with n.
  rewrite concat_empty_cons, concat_all_empty.
  - rewrite str_app_nil, vec_at_single, Nat.eqb_refl.
    unfold render_term. rewrite Nat.ltb_irrefl.
    destruct n as [|[|n]]; reflexivity.
  - apply Forall_forall. intros s Hs. apply in_map_iff in Hs as [i [<- Hi]].
    apply in_rev, in_seq in Hi. rewrite vec_at_single.
    destruct (Nat.eqb_spec i n); [lia | reflexivity].
Qed.

(** X13: Newton's step [basic_next] leaves an exact root in place: for a
    finite non-zero [p], [basic_next(p^n, n, p) = p] whenever [p^n] is
    finite and the derivative [n * p^(n-1)] is finite and non-zero, as
    [power] computes them. *)
Theorem basic_next_fixed (p : float) (n : N) :
  is_finite p = true -> (p =? 0)%float = false ->
  is_finite (power p n) = true ->
  is_finite (u32_as_f64 n * power p (u32_pred n))%float = true ->
  (u32_as_f64 n * power p (u32_pred n) =? 0)%float = false ->
  basic_next (power p n) n p = p.
Proof.
  intros Hp Hp0 Hv Hd Hd0. unfold basic_next.
  apply float_sub_zero; [exact Hp | exact Hp0|].
  apply float_div_zero; [| exact Hd | exact Hd0].
  exists false. apply float_sub_self, Hv.
Qed.

Lemma iter_while_stop {St : Type} (guard : St -> bool) (body : St -> St) (f : positive) (s : St) :
  guard s = false -> iter_while guard body f s = s.
Proof. intros G. destruct f; simpl; rewrite G; reflexivity. Qed.

(** X14: if the step function returns its starting point [1.0] (or [-1.0]
    for a negative [x]) unchanged, [root] returns that point without running
    the loop. *)
Theorem root_fixed_start (next : float * N * float -> float) (x : float) (n : N) :
  (abs x <=? EPSILON)%float = false ->
  next (x, n, if (0 <=? x)%float then 1%float else (-1)%float) =
    (if (0 <=? x)%float then 1%float else (-1)%float) ->
  root next x n = (if (0 <=? x)%float then 1%float else (-1)%float).
Proof.
  intros Hx Hfix. unfold root. rewrite Hx, iter_while_stop.
  - unfold root_init. cbn [rs_u]. exact Hfix.
  - unfold root_guard, root_init. cbn [rs_u rs_p]. rewrite Hfix.
    destruct (0 <=? x)%float; reflexivity.
Qed.

(** X15: [==] on polynomials is reflexive exactly on the polynomials with
    no NaN coefficient. *)
Theorem polynom_eqb_refl (p : Polynom) :
  polynom_eqb p p = true <-> Forall (fun c => Prim2SF c <> S754_nan) (coeficients p).
Proof.
  destruct p as [l]. unfold polynom_eqb. cbn [coeficients].
  induction l as [|c l IH]; simpl.
  - split; [constructor | reflexivity].
  - rewrite andb_true_iff, IH, float_eqb_refl. split.
    + intros [H1 H2]. constructor; assumption.
    + intros H. inversion H. split; assumption.
Qed.

Lemma vec_set_after_ones (j : nat) (x v : float) (r : list float) :
  vec_set (repeat 1%float j ++ x :: r) j v = Some (repeat 1%float j ++ v :: r).
Proof. induction j as [|j IH]; [reflexivity|]. simpl. rewrite IH. reflexivity. Qed.

Lemma single_repeat (n : nat) : coeficients (single n) = repeat 0%float n ++ [1%float].
Proof.
  unfold single. cbn [coeficients]. rewrite seq_S, map_app. cbn [map].
  change (0 + n) with n. rewrite Nat.ltb_irrefl. f_equal.
  apply (nth_ext _ _ 0%float 0%float).
  - rewrite length_map, length_seq, repeat_length. reflexivity.
  - intros k Hk. rewrite length_map, length_seq in Hk.
    rewrite nth_map_lt by (rewrite length_seq; exact Hk).
    rewrite seq_nth, nth_repeat by exact Hk. simpl.
    destruct (Nat.ltb_spec k n); [reflexivity | lia].
Qed.

Lemma trim_ends_in_one (l : list float) : trim (mkPolynom (l ++ [1%float])) = mkPolynom (l ++ [1%float]).
Proof.
  apply trim_id. unfold canonical. cbn [coeficients]. rewrite last_last, length_app.
  simpl. rewrite orb_true_r, andb_true_r, Nat.add_comm. reflexivity.
Qed.

Lemma set_ones_prefix (n j : nat) :
  j <= n ->
  fold_left (fun op i => match op with Some q => set_at q i 1%float | None => None end)
    (seq 0 j) (Some (single n)) =
  Some (mkPolynom (repeat 1%float j ++ repeat 0%float (n - j) ++ [1%float])).
Proof.
  induction j as [|j IH]; intros Hj.
  - cbn [seq fold_left repeat app]. rewrite Nat.sub_0_r, <- single_repeat. reflexivity.
  - rewrite seq_S, fold_left_app, IH by lia. cbn [fold_left]. change (0 + j) with j.
    unfold set_at. cbn [coeficients].
    replace (n - j) with (S (n - S j)) by lia. cbn [repeat app].
    rewrite vec_set_after_ones.
    replace (repeat 1%float j ++ 1%float :: repeat 0%float (n - S j) ++ [1%float])
      with ((repeat 1%float j ++ 1%float :: repeat 0%float (n - S j)) ++ [1%float])
      by (rewrite <- app_assoc; reflexivity).
    rewrite trim_ends_in_one, <- app_assoc. cbn [app].
    rewrite (app_comm_cons (repeat 1%float j)), repeat_cons, <- app_assoc. reflexivity.
Qed.

(** X16: the loop of the test [valid_polynomes], [set_at(i, 1.0)] for
    every [i] below the degree, turns [single(n)] into the polynomial with
    [n + 1] coefficients [1.0], for every [n]. *)
Theorem set_ones_single (n : nat) :
  set_ones_loop (single n) = initialize (repeat 1%float (S n)).
Proof.
  assert (L : last (1%float :: repeat 1%float n) 0%float = 1%float)
    by (rewrite repeat_cons; apply last_last).
  unfold set_ones_loop. rewrite degree_single, set_ones_prefix by lia.
  rewrite Nat.sub_diag. cbn [repeat app]. rewrite <- repeat_cons.
  unfold initialize. cbn [repeat]. rewrite L. reflexivity.
Qed.

Lemma canonical_map (f : float -> float) (p : Polynom) :
  canonical p = true -> (f (vec_at (coeficients p) (degree p)) =? 0)%float = false ->
  canonical (mkPolynom (map f (coeficients p))) = true.
Proof.
  intros Hc Hf. unfold canonical in *. cbn [coeficients] in *. rewrite length_map.
  apply andb_true_iff in Hc as [H1 _]. rewrite H1. simpl.
  rewrite last_nth_len, length_map. apply Nat.leb_le in H1.
  rewrite (nth_map_in _ _ _ _ 0%float) by lia. unfold vec_at, degree in Hf.
  rewrite Hf, orb_true_r. reflexivity.
Qed.

(** X17: [by(x)] keeps a canonical polynomial canonical, with the same
    degree, when the new leading coefficient [p[d] * x] is not [== 0.0]. *)
Theorem by_keeps_canonical (p : Polynom) (x : float) :
  canonical p = true -> (vec_at (coeficients p) (degree p) * x =? 0)%float = false ->
  canonical (by_ p x) = true /\ degree (by_ p x) = degree p.
Proof.
  intros Hc Hx. split.
  - apply (canonical_map (fun c => c * x)%float p Hc Hx).
  - unfold degree, by_. cbn [coeficients]. rewrite length_map. reflexivity.
Qed.

(** X18: on a canonical polynomial, [plus(x)] adds [x] to every coefficient
    and keeps the degree when the new leading coefficient [p[d] + x] is not
    [== 0.0]: [trim] then removes nothing. *)
Theorem plus_keeps_degree (p : Polynom) (x : float) :
  canonical p = true -> (vec_at (coeficients p) (degree p) + x =? 0)%float = false ->
  plus p x = mkPolynom (map (fun c => (c + x)%float) (coeficients p)) /\
  degree (plus p x) = degree p.
Proof.
  intros Hc Hx. unfold plus.
  rewrite trim_id by apply (canonical_map (fun c => c + x)%float p Hc Hx).
  split; [reflexivity|]. unfold degree. cbn [coeficients]. rewrite length_map. reflexivity.
Qed.

(** X19: [Display] prints [0] when every coefficient is [== 0.0], whatever
    the length of the vector. *)
Theorem fmt_all_zero (p : Polynom) :
  Forall (fun c => (c =? 0)%float = true) (coeficients p) -> fmt p = "0"%string.
Proof.
  intros H. unfold fmt. rewrite fmt_loop_concat, concat_all_empty; [reflexivity|].
  apply Forall_forall. intros s Hs. apply in_map_iff in Hs as [i [<- _]].
  unfold render_term, vec_at.
  destruct (Nat.lt_ge_cases i (List.length (coeficients p))) as [Hi|Hi].
  - rewrite Forall_forall in H. rewrite H by (apply nth_In, Hi). reflexivity.
  - rewrite nth_overflow by exact Hi. reflexivity.
Qed.

Lemma power_loop_one (r : float) (c : positive) :
  (r = 0 \/ r = 1 \/ r = -1)%float -> power_loop PrimFloat.mul r 1%float c = r.
Proof.
  revert r; induction c as [c IH|c IH|]; intros r Hr; simpl.
  - replace (r * 1)%float with r by (destruct Hr as [->|[->| ->]]; reflexivity).
    apply IH, Hr.
  - apply IH, Hr.
  - destruct Hr as [->|[->| ->]]; reflexivity.
Qed.

Lemma power_loop_zero (r : float) (c : positive) :
  (r = 0 \/ r = 1)%float -> power_loop PrimFloat.mul r 0%float c = 0%float.
Proof.
  revert r; induction c as [c IH|c IH|]; intros r Hr; simpl.
  - apply IH. destruct Hr as [->| ->]; left; reflexivity.
  - apply IH, Hr.
  - destruct Hr as [->| ->]; reflexivity.
Qed.

(** X20: [power] is exact on [0], [1] and [-1]: [power(1, n) = 1],
    [power(0, n) = 0] for [n > 0], and [power(-1, n)] is [1] for an even
    [n] and [-1] for an odd one. *)
Theorem power_unit_values (n : N) :
  power 1 n = 1%float /\
  (n <> 0%N -> power 0 n = 0%float) /\
  power (-1) n = (if N.even n then 1 else -1)%float.
Proof.
  destruct n as [|c]; [split; [reflexivity | split; [congruence | reflexivity]]|].
  unfold power, power_by. split; [|split].
  - apply power_loop_one. right; left; reflexivity.
  - intros _. apply power_loop_zero. right; reflexivity.
  - destruct c as [c|c|]; simpl.
    + apply power_loop_one. right; right; reflexivity.
    + apply power_loop_one. right; left; reflexivity.
    + reflexivity.
Qed.

(** ** Witnesses of the further properties *)

Lemma trim_drops_trailing_zeros_witness :
  coeficients (mkPolynom [1; 0; 0]%float) <> [] /\
  canonical (trim (mkPolynom [1; 0; 0]%float)) = true /\
  (exists z, coeficients (mkPolynom [1; 0; 0]%float) =
             coeficients (trim (mkPolynom [1; 0; 0]%float)) ++ z /\
             Forall (fun c => (c =? 0)%float = true) z) /\
  (canonical (mkPolynom [1; 0; 0]%float) = true ->
   trim (mkPolynom [1; 0; 0]%float) = mkPolynom [1; 0; 0]%float).
Proof.
  split; [discriminate|].
  apply (trim_drops_trailing_zeros (mkPolynom [1; 0; 0]%float)). discriminate.
Defined.

Lemma set_at_replaces_witness :
  (canonical (single 2) = true /\ 0 <= degree (single 2) /\
   (0 < degree (single 2) \/ (5 =? 0)%float = false)) /\
  exists q, set_at (single 2) 0 5 = Some q /\ degree q = degree (single 2) /\
    canonical q = true /\
    forall k, vec_at (coeficients q) k =
              if Nat.eqb k 0 then 5%float else vec_at (coeficients (single 2)) k.
Proof.
  split; [split; [vm_compute; reflexivity | split; [vm_compute; lia | left; vm_compute; lia]]|].
  apply (set_at_replaces (single 2) 0 5);
    [vm_compute; reflexivity | vm_compute; lia | left; vm_compute; lia].
Defined.

Lemma add_canonical_witness :
  (canonical (single 2) = true /\ canonical (single 1) = true /\
   (degree (single 2) <> degree (single 1) \/
    (vec_at (coeficients (single 2)) (degree (single 2)) +
     vec_at (coeficients (single 1)) (degree (single 1)) =? 0)%float = false)) /\
  canonical (add (single 2) (single 1)) = true /\
  degree (add (single 2) (single 1)) = Nat.max (degree (single 2)) (degree (single 1)).
Proof.
  split; [split; [vm_compute; reflexivity | split; [vm_compute; reflexivity | right; vm_compute; reflexivity]]|].
  apply (add_canonical (single 2) (single 1));
    [vm_compute; reflexivity | vm_compute; reflexivity | right; vm_compute; reflexivity].
Defined.


Lemma plus_zero_id_witness :
  (canonical (single 2) = true /\
   Forall (fun c => Prim2SF c <> S754_zero true) (coeficients (single 2))) /\
  plus (single 2) 0 = single 2.
Proof.
  split; [split; [vm_compute; reflexivity | repeat constructor; vm_compute; discriminate]|].
  apply (plus_zero_id (single 2));
    [vm_compute; reflexivity | repeat constructor; vm_compute; discriminate].
Defined.

Lemma mul_zero_witness :
  Forall (fun c => is_finite c = true) (coeficients (single 1)) /\
  mul zero (single 1) = zero /\ mul (single 1) zero = zero.
Proof.
  split; [repeat constructor|].
  apply (mul_zero (single 1)). repeat constructor.
Defined.

Lemma basic_next_fixed_witness :
  (is_finite 2 = true /\ (2 =? 0)%float = false /\ is_finite (power 2 3) = true /\
   is_finite (u32_as_f64 3 * power 2 (u32_pred 3))%float = true /\
   (u32_as_f64 3 * power 2 (u32_pred 3) =? 0)%float = false) /\
  basic_next (power 2 3) 3 2 = 2%float.
Proof.
  split; [repeat split; vm_compute; reflexivity|].
  apply (basic_next_fixed 2 3); vm_compute; reflexivity.
Defined.

Lemma root_fixed_start_witness :
  ((abs 1 <=? EPSILON)%float = false /\
   basic_step (1%float, 2%N, if (0 <=? 1)%float then 1%float else (-1)%float) =
     (if (0 <=? 1)%float then 1%float else (-1)%float)) /\
  root basic_step 1 2 = (if (0 <=? 1)%float then 1%float else (-1)%float).
Proof.
  split; [split; vm_compute; reflexivity|].
  apply (root_fixed_start basic_step 1 2); vm_compute; reflexivity.
Defined.

Lemma by_keeps_canonical_witness :
  (canonical (single 2) = true /\
   (vec_at (coeficients (single 2)) (degree (single 2)) * 3 =? 0)%float = false) /\
  canonical (by_ (single 2) 3) = true /\ degree (by_ (single 2) 3) = degree (single 2).
Proof.
  split; [split; vm_compute; reflexivity|].
  apply (by_keeps_canonical (single 2) 3); vm_compute; reflexivity.
Defined.

Lemma plus_keeps_degree_witness :
  (canonical (single 2) = true /\
   (vec_at (coeficients (single 2)) (degree (single 2)) + 1 =? 0)%float = false) /\
  plus (single 2) 1 = mkPolynom (map (fun c => (c + 1)%float) (coeficients (single 2))) /\
  degree (plus (single 2) 1) = degree (single 2).
Proof.
  split; [split; vm_compute; reflexivity|].
  apply (plus_keeps_degree (single 2) 1); vm_compute; reflexivity.
Defined.

Lemma fmt_all_zero_witness :
  Forall (fun c => (c =? 0)%float = true) (coeficients (by_ (single 1) 0)) /\
  fmt (by_ (single 1) 0) = "0"%string.
Proof.
  split; [repeat constructor|].
  apply (fmt_all_zero (by_ (single 1) 0)). repeat constructor.
Defined.
